(** * The apputils extension of JupyterLab: settings connector, theme
    commands, splash screen and state database plugins.

    A shallow embedding of [packages/apputils-extension/src/index.ts].
    The plugins are callbacks handed to a host application; each callback
    is embedded as a function on an explicit state, and the host (command
    registry, router, timers, remote services) is the environment that
    chooses which callback runs next and how remote calls settle. *)

From Stdlib Require Import ZArith NArith Lia.
From stdpp Require Import gmap strings list.

Local Open Scope Z_scope.

#[local] Set Warnings "-register-all".

(** ** JavaScript values *)

Module JS.

(** A JavaScript string is a sequence of UTF-16 code units. *)
Definition char16 : Type := N.
Definition jsstring : Type := list char16.

(** String literals of the source, written as Rocq strings. *)
Definition lit (s : string) : jsstring :=
  map Ascii.N_of_ascii (String.list_ascii_of_string s).

(** [LineTerminator] of ECMAScript: LF, CR, LS and PS. *)
Definition is_line_terminator (c : char16) : bool :=
  ((c =? 10) || (c =? 13) || (c =? 8232) || (c =? 8233))%N.

(** The regular expression atom [.] (no [s] flag, no [u] flag): one code
    unit that is no line terminator. *)
Definition dot (c : char16) : bool := negb (is_line_terminator c).

(** [!s] on a string: only the empty string is falsy. *)
Definition str_falsy (s : jsstring) : bool :=
  match s with [] => true | _ :: _ => false end.

(** [x || ''] where [x] is a string or [undefined]. *)
Definition or_empty (x : option jsstring) : jsstring :=
  match x with
  | Some s => if str_falsy s then [] else s
  | None => []
  end.

(** How a promise settles. *)
Inductive settled (A R : Type) : Type :=
| Fulfilled (value : A)
| Rejected (reason : R).
Arguments Fulfilled {A R} value.
Arguments Rejected {A R} reason.

(** [p.then(f)] for a callback [f] that returns a plain value. *)
Definition promise_then {A B R} (p : settled A R) (f : A -> B) : settled B R :=
  match p with
  | Fulfilled a => Fulfilled (f a)
  | Rejected r => Rejected r
  end.

Section Json.

(** IEEE doubles stay abstract; only their rendering in a template literal
    and their truthiness are used. *)
Variable Num : Type.
Variable num_to_string : Num -> jsstring.
Variable num_truthy : Num -> bool.

Inductive json : Type :=
| JNull
| JBool (b : bool)
| JNum (n : Num)
| JStr (s : jsstring)
| JArr (items : list json)
| JObj (fields : list (jsstring * json)).

(** A property read [args[k]]: [None] is [undefined]. *)
Definition value : Type := option json.

(** [ToBoolean]. *)
Definition truthy (v : value) : bool :=
  match v with
  | None | Some JNull => false
  | Some (JBool b) => b
  | Some (JNum n) => num_truthy n
  | Some (JStr s) => negb (str_falsy s)
  | Some (JArr _) | Some (JObj _) => true
  end.

(** [ToString] as a template literal applies it. An array joins its items
    with commas, a [null] item rendering as the empty string. *)
Fixpoint json_to_string (j : json) : jsstring :=
  match j with
  | JNull => lit "null"
  | JBool true => lit "true"
  | JBool false => lit "false"
  | JNum n => num_to_string n
  | JStr s => s
  | JArr items =>
      (fix join (l : list json) : jsstring :=
         match l with
         | [] => []
         | [x] => match x with JNull => [] | _ => json_to_string x end
         | x :: rest =>
             match x with JNull => [] | _ => json_to_string x end
               ++ lit "," ++ join rest
         end) items
  | JObj _ => lit "[object Object]"
  end.

Definition to_string (v : value) : jsstring :=
  match v with
  | None => lit "undefined"
  | Some j => json_to_string j
  end.

(** [v === t] where [t] has the type [string | null] ([None] is [null]):
    strict equality holds only between two equal strings or between [null]
    and [null]. *)
Definition strict_eq_name (v : value) (t : option jsstring) : bool :=
  match v, t with
  | Some (JStr s), Some s' => bool_decide (s = s')
  | Some JNull, None => true
  | _, _ => false
  end.

(** A [string | null] as a JavaScript value. *)
Definition of_name (t : option jsstring) : value :=
  match t with
  | Some s => Some (JStr s)
  | None => Some JNull
  end.

End Json.

Arguments JNull {Num}.
Arguments JBool {Num} b.
Arguments JNum {Num} n.
Arguments JStr {Num} s.
Arguments JArr {Num} items.
Arguments JObj {Num} fields.
Arguments truthy {Num} num_truthy v.
Arguments to_string {Num} num_to_string v.
Arguments strict_eq_name {Num} v t.
Arguments of_name {Num} t.

End JS.

Import JS.

(** ** Command identifiers *)

Module CommandIDs.
Definition changeTheme : jsstring := lit "apputils:change-theme".
Definition clearState : jsstring := lit "apputils:clear-statedb".
Definition loadState : jsstring := lit "apputils:load-statedb".
Definition saveState : jsstring := lit "apputils:save-statedb".
End CommandIDs.

(** ** The settings connector *)

Module SettingsConnector.
Section Connector.

(** [ISettingRegistry.IPlugin]: the bundle's [id], and its other fields
    ([data], [raw], [schema]), which the connector never reads. *)
Variable Rest : Type.
Variable Reason : Type.

Record IPlugin : Type := { id : jsstring; rest : Rest }.

(** [manager.settings], the remote settings service: how its [fetch] and
    [save] settle for their arguments. *)
Record ServiceManager : Type := {
  settings_fetch : jsstring -> settled IPlugin Reason;
  settings_save : jsstring -> jsstring -> settled unit Reason
}.

(** [fetch(id)]: [data.id = id; return data] once the remote fetch is
    fulfilled. *)
Definition fetch (_manager : ServiceManager) (id0 : jsstring)
  : settled IPlugin Reason :=
  promise_then (settings_fetch _manager id0)
    (fun data => {| id := id0; rest := rest data |}).

(** [save(id, raw)]. *)
Definition save (_manager : ServiceManager) (id0 raw : jsstring)
  : settled unit Reason :=
  settings_save _manager id0 raw.

End Connector.

Arguments id {Rest} _.
Arguments rest {Rest} _.
Arguments settings_fetch {Rest Reason} _ _.
Arguments settings_save {Rest Reason} _ _ _.
Arguments fetch {Rest Reason} _manager id0.
Arguments save {Rest Reason} _manager id0 raw.

End SettingsConnector.

(** ** The change-theme command of the theme manager plugin *)

Module Themes.
Section Activate.

Variable Num : Type.
Variable num_to_string : Num -> jsstring.
Variable num_truthy : Num -> bool.

(** The theme manager: its current theme ([manager.theme], a
    [string | null]) and its [setTheme] operation. *)
Variable Manager : Type.
Variable theme : Manager -> option jsstring.
Variable setTheme : value Num -> Manager -> Manager.

(** The [args] object of a command invocation. *)
Definition Args : Type := gmap jsstring (json Num).

(** The calls the command makes on the manager. *)
Inductive Call : Type :=
| SetTheme (name : value Num).

(** [label: args => args['isPalette'] ? `Use ${theme} Theme` : theme]. *)
Definition label (args : Args) : value Num :=
  let theme := args !! lit "theme" in
  if truthy num_truthy (args !! lit "isPalette")
  then Some (JStr (lit "Use " ++ to_string num_to_string theme ++ lit " Theme"))
  else theme.

(** [isToggled: args => args['theme'] === manager.theme]. *)
Definition isToggled (args : Args) (manager : Manager) : bool :=
  strict_eq_name (args !! lit "theme") (theme manager).

(** [execute]: the manager afterwards and the calls made on it. *)
Definition execute (args : Args) (manager : Manager) : Manager * list Call :=
  if strict_eq_name (args !! lit "theme") (theme manager)
  then (manager, [])
  else (setTheme (args !! lit "theme") manager,
        [SetTheme (args !! lit "theme")]).

(** An item as [Menu.addItem] and [ICommandPalette.addItem] take it; the
    menu items carry no category. *)
Record Item : Type := {
  command : jsstring;
  args : Args;
  category : option jsstring
}.

(** The object literal [{ isPalette, theme }]. *)
Definition item_args (isPalette : bool) (theme : jsstring) : Args :=
  <[lit "isPalette" := JBool isPalette]> (<[lit "theme" := JStr theme]> ∅).

(** The items the first [manager.ready] callback adds to the theme menu,
    one per theme of [manager.themes], in order. *)
Definition themeMenu_items (themes : list jsstring) : list Item :=
  let command := CommandIDs.changeTheme in
  let isPalette := false in
  map (fun theme =>
         {| command := command; args := item_args isPalette theme;
            category := None |}) themes.

(** The items the second [manager.ready] callback adds to the palette. *)
Definition palette_items (themes : list jsstring) : list Item :=
  let category := lit "Settings" in
  let command := CommandIDs.changeTheme in
  let isPalette := true in
  map (fun theme =>
         {| command := command; args := item_args isPalette theme;
            category := Some category |}) themes.

(** What [activate] contributes once the manager is ready: the menu items
    if there is a main menu, the palette items if there is a palette. *)
Definition contributions (mainMenu palette : bool) (themes : list jsstring)
  : list Item * list Item :=
  (if mainMenu then themeMenu_items themes else [],
   if palette then palette_items themes else []).

End Activate.

Arguments command {Num} _.
Arguments args {Num} _.
Arguments category {Num} _.
Arguments item_args {Num} isPalette theme.
Arguments themeMenu_items {Num} themes.
Arguments palette_items {Num} themes.
Arguments contributions {Num} mainMenu palette themes.
Arguments SetTheme {Num} name.
Arguments label {Num} num_to_string num_truthy args.
Arguments isToggled {Num Manager} theme args manager.
Arguments execute {Num Manager} theme setTheme args manager.

End Themes.

(** ** The splash screen: module private data *)

Module Private.

(** The module's variables [splash] and [splashCount], the part of the
    document they touch, and the host's timers and clock. A handle
    returned by [showSplash] is a [DisposableDelegate]: it runs its
    callback on the first [dispose] only, so each handle carries a flag. *)
Record State : Type := {
  splash : bool;          (* the element has been created ([splash] is not null) *)
  splashCount : Z;
  fade : bool;            (* the element's classList holds 'splash-fade' *)
  attached : bool;        (* the element is a child of [document.body] *)
  timers : list N;        (* due times of the pending [setTimeout] callbacks *)
  now : N;                (* the clock, in milliseconds *)
  handles : list bool;    (* per handle, in creation order: disposed? *)
  uncaught : nat          (* errors thrown out of timer callbacks *)
}.

(** The module as loaded: no element, a count of zero. *)
Definition init : State :=
  {| splash := false; splashCount := 0; fade := false; attached := false;
     timers := []; now := 0%N; handles := []; uncaught := 0%nat |}.

(** The delay handed to [setTimeout]. *)
Definition fade_delay : N := 500%N.

(** [showSplash()]: the handle returned and the state afterwards. The
    element is built on the first call; building it gives it no class and
    does not attach it. *)
Definition showSplash (s : State) : nat * State :=
  (length (handles s),
   {| splash := true;
      fade := false;                     (* classList.remove('splash-fade') *)
      attached := true;                  (* document.body.appendChild(splash) *)
      splashCount := splashCount s + 1;  (* splashCount++ *)
      timers := timers s; now := now s;
      handles := handles s ++ [false];
      uncaught := uncaught s |}).

(** The callback of a handle. *)
Definition release (s : State) : State :=
  let count := Z.max (splashCount s - 1) 0 in
  if (count =? 0) && splash s
  then {| splash := splash s; splashCount := count;
          fade := true;                          (* classList.add('splash-fade') *)
          attached := attached s;
          timers := timers s ++ [(now s + fade_delay)%N];
          now := now s; handles := handles s; uncaught := uncaught s |}
  else {| splash := splash s; splashCount := count;
          fade := fade s; attached := attached s; timers := timers s;
          now := now s; handles := handles s; uncaught := uncaught s |}.

(** [handle.dispose()] on the handle numbered [h]. *)
Definition dispose (h : nat) (s : State) : State :=
  match handles s !! h with
  | Some false =>
      release {| splash := splash s; splashCount := splashCount s;
                 fade := fade s; attached := attached s; timers := timers s;
                 now := now s; handles := <[h := true]> (handles s);
                 uncaught := uncaught s |}
  | Some true | None => s
  end.

(** The timer callback [document.body.removeChild(splash)]: it detaches
    the element, and throws when the element is no child of the body. *)
Definition removeChild (s : State) : State :=
  {| splash := splash s; splashCount := splashCount s; fade := fade s;
     attached := false; timers := timers s; now := now s;
     handles := handles s;
     uncaught := if attached s then uncaught s else S (uncaught s) |}.

(** [d] milliseconds pass: the callbacks that are due run, oldest first. *)
Definition elapse (d : N) (s : State) : State :=
  let t := (now s + d)%N in
  let due := filter (fun x => (x <= t)%N) (timers s) in
  let later := filter (fun x => ~ (x <= t)%N) (timers s) in
  fold_left (fun s' _ => removeChild s') due
    {| splash := splash s; splashCount := splashCount s; fade := fade s;
       attached := attached s; timers := later; now := t;
       handles := handles s; uncaught := uncaught s |}.

(** What the environment does to the splash screen. *)
Inductive Event : Type :=
| Show
| Dispose (h : nat)
| Elapse (d : N).

Definition step (s : State) (e : Event) : State :=
  match e with
  | Show => snd (showSplash s)
  | Dispose h => dispose h s
  | Elapse d => elapse d s
  end.

Definition run (s : State) (t : list Event) : State := fold_left step t s.

(** The overlay follows the count: attached while the count is positive,
    and gone once the count is zero and no removal is pending. *)
Definition attached_iff_counted (s : State) : Prop :=
  (0 < splashCount s -> attached s = true) /\
  (splashCount s = 0 -> timers s = [] -> attached s = false).

(** How many handles have not been disposed. *)
Definition outstanding (s : State) : nat :=
  length (List.filter negb (handles s)).

(** How many removals are due once [d] milliseconds have passed. *)
Definition due (d : N) (s : State) : nat :=
  length (filter (fun x => (x <= now s + d)%N) (timers s)).

(** A course of events in which [show()] is only called when no removal
    is pending. *)
Fixpoint calm (s : State) (t : list Event) : bool :=
  match t with
  | [] => true
  | e :: t' =>
      match e with
      | Show => match timers s with [] => true | _ :: _ => false end
      | _ => true
      end && calm (step s e) t'
  end.

End Private.

(** ** The state database plugin *)

Module StateDB.

(** [const pattern = /^\/workspaces\/(.+)/]. *)

(** [strip p s]: what follows [p] in [s], when [s] starts with [p]. *)
Fixpoint strip (p s : jsstring) : option jsstring :=
  match p, s with
  | [], _ => Some s
  | _ :: _, [] => None
  | a :: p', b :: s' => if (a =? b)%N then strip p' s' else None
  end.

(** The greedy [.+] at the end of the pattern takes every code unit up to
    the first line terminator. *)
Fixpoint take_dots (s : jsstring) : jsstring :=
  match s with
  | [] => []
  | c :: s' => if dot c then c :: take_dots s' else []
  end.

(** [s.match(pattern)]: [None] is the [null] of a failed match, [Some w]
    an array whose element [1], the capture group, is [w]. *)
Definition pattern_match (s : jsstring) : option jsstring :=
  match strip (lit "/workspaces/") s with
  | None => None
  | Some tail =>
      match take_dots tail with
      | [] => None
      | c :: w => Some (c :: w)
      end
  end.

(** The pattern read as a statement about the string: [s] is
    [/workspaces/], then the non-empty group [w] free of line terminators,
    then nothing or a line terminator and anything. *)
Definition Matches (s w : jsstring) : Prop :=
  exists tail : jsstring,
    s = lit "/workspaces/" ++ w ++ tail /\
    w <> [] /\
    Forall (fun c => dot c = true) w /\
    match tail with [] => True | c :: _ => is_line_terminator c = true end.

Section Activate.

(** The snapshot of a state database is opaque here, and so is the reason
    a remote call is rejected with. *)
Variable Data : Type.
Variable Reason : Type.

(** [URLExt.join(PageConfig.getBaseUrl(), PageConfig.getOption('pageUrl'))]. *)
Variable base : jsstring.

(** [StateDB.DataTransform], with the two types the plugin resolves to. *)
Inductive TransformType : Type := cancel | overwrite.

Record DataTransform : Type := {
  type : TransformType;
  contents : option Data        (* [None] is [null] *)
}.

(** A workspace as the workspace service returns it. *)
Record Workspace : Type := {
  data : Data;
  metadata : jsstring           (* [metadata.id] *)
}.

Inductive Console : Type :=
| Log (message : jsstring)
| Warn (message : jsstring) (reason : Reason).

(** The variables the closures of [activate] share, and what they act on. *)
Record State : Type := {
  resolved : bool;
  registered : bool;            (* [disposables] is not disposed: the load
                                   command and its route are registered *)
  connected : bool;             (* [unload] is connected to [router.routed] *)
  resolves : list DataTransform;(* the calls of [transform.resolve], oldest first *)
  fetching : list jsstring;     (* the workspace fetches in flight *)
  url : jsstring;               (* the browser's current URL *)
  console : list Console
}.

(** A promise keeps the value of the first [resolve]. *)
Definition transform (s : State) : option DataTransform := head (resolves s).

Definition resolve (v : DataTransform) (s : State) : State :=
  {| resolved := resolved s; registered := registered s;
     connected := connected s; resolves := resolves s ++ [v];
     fetching := fetching s; url := url s; console := console s |}.

Definition write (c : Console) (s : State) : State :=
  {| resolved := resolved s; registered := registered s;
     connected := connected s; resolves := resolves s;
     fetching := fetching s; url := url s; console := console s ++ [c] |}.

(** [activate]: nothing resolved, the command and the route registered,
    [unload] connected; [u] is the URL the page was opened with. *)
Definition activate (u : jsstring) : State :=
  {| resolved := false; registered := true; connected := true;
     resolves := []; fetching := []; url := u; console := [] |}.

(** [unload]. *)
Definition unload (s : State) : State :=
  let s1 :=
    {| resolved := resolved s;
       registered := false;     (* disposables.dispose() *)
       connected := false;      (* router.routed.disconnect(unload, state) *)
       resolves := resolves s; fetching := fetching s; url := url s;
       console := console s |} in
  if negb (resolved s1)
  then resolve {| type := cancel; contents := None |}
         (write (Log (lit "No workspace requested. Leaving state database intact.")) s1)
  else s1.

(** How an execution of the load command leaves its synchronous part. *)
Inductive Outcome : Type :=
| Threw                          (* TypeError: [null] has no property 1 *)
| NoWorkspace                    (* the branch [if (!workspace)] *)
| Fetching (workspace : jsstring).

(** [execute] of the load command, up to the call of [workspaces.fetch]. *)
Definition loadState (path : option jsstring) (s : State) : Outcome * State :=
  match pattern_match (or_empty path) with
  | None => (Threw, s)
  | Some workspace =>
      let s1 :=
        {| resolved := true;     (* resolved = true *)
           registered := registered s; connected := connected s;
           resolves := resolves s; fetching := fetching s;
           url := base;          (* window.history.replaceState({ }, '', base) *)
           console := console s |} in
      if str_falsy workspace
      then (NoWorkspace,
            resolve {| type := cancel; contents := None |}
              (write (Log (lit "No workspace found. Leaving state database intact.")) s1))
      else (Fetching workspace,
            {| resolved := resolved s1; registered := registered s1;
               connected := connected s1; resolves := resolves s1;
               fetching := fetching s1 ++ [workspace];
               url := url s1; console := console s1 |})
  end.

(** The [then] and [catch] callbacks on [workspaces.fetch(workspace)]. *)
Definition fetched (workspace : jsstring) (r : settled Workspace Reason)
    (s : State) : State :=
  match r with
  | Fulfilled session =>
      resolve {| type := overwrite; contents := Some (data session) |} s
  | Rejected reason =>
      resolve {| type := cancel; contents := None |}
        (write (Warn (lit "Fetching workspace (" ++ workspace ++ lit ") failed.")
                  reason) s)
  end.

(** What the host does to the plugin: the router emits [routed], the
    command registry executes the load command, the workspace service
    settles the fetch numbered [n] among those in flight. *)
Inductive Event : Type :=
| Routed
| Execute (path : option jsstring)
| Settle (n : nat) (r : settled Workspace Reason).

Definition step (s : State) (e : Event) : State :=
  match e with
  | Routed => if connected s then unload s else s
  | Execute path => if registered s then snd (loadState path s) else s
  | Settle n r =>
      match fetching s !! n with
      | Some workspace =>
          fetched workspace r
            {| resolved := resolved s; registered := registered s;
               connected := connected s; resolves := resolves s;
               fetching := delete n (fetching s);
               url := url s; console := console s |}
      | None => s
      end
  end.

Definition run (s : State) (t : list Event) : State := fold_left step t s.

(** How often the host executed the load command, and how often the
    router emitted [routed]. *)
Fixpoint executions (t : list Event) : nat :=
  match t with
  | [] => 0
  | Execute _ :: t' => S (executions t')
  | _ :: t' => executions t'
  end.

Fixpoint routings (t : list Event) : nat :=
  match t with
  | [] => 0
  | Routed :: t' => S (routings t')
  | _ :: t' => routings t'
  end.

(** How often the load command was executed with a path that matches the
    pattern before the router first emitted [routed], that is, while the
    command was registered. *)
Fixpoint matched_loads (t : list Event) : nat :=
  match t with
  | [] => 0
  | Routed :: _ => 0
  | Execute path :: t' =>
      match pattern_match (or_empty path) with
      | Some _ => S (matched_loads t')
      | None => matched_loads t'
      end
  | Settle _ _ :: t' => matched_loads t'
  end.

End Activate.

Arguments type {Data} _.
Arguments contents {Data} _.
Arguments data {Data} _.
Arguments metadata {Data} _.
Arguments Log {Reason} message.
Arguments Warn {Reason} message reason.
Arguments resolved {Data Reason} _.
Arguments registered {Data Reason} _.
Arguments connected {Data Reason} _.
Arguments resolves {Data Reason} _.
Arguments fetching {Data Reason} _.
Arguments url {Data Reason} _.
Arguments console {Data Reason} _.
Arguments transform {Data Reason} s.
Arguments activate {Data Reason} u.
Arguments unload {Data Reason} s.
Arguments loadState {Data Reason} base path s.
Arguments fetched {Data Reason} workspace r s.
Arguments Routed {Data Reason}.
Arguments Execute {Data Reason} path.
Arguments Settle {Data Reason} n r.
Arguments step {Data Reason} base s e.
Arguments run {Data Reason} base s t.
Arguments executions {Data Reason} t.
Arguments routings {Data Reason} t.
Arguments matched_loads {Data Reason} t.

Section Save.

Variable Data : Type.
Variable Reason : Type.

(** [Date], and the helpers of coreutils the command calls:
    [Time.format(date, format)], [URLExt.join(a, b)] and
    [PageConfig.getWorkspacesUrl()]. *)
Variable Date : Type.
Variable Time_format : Date -> jsstring -> jsstring.
Variable URLExt_join : jsstring -> jsstring -> jsstring.
Variable workspacesUrl : jsstring.

(** What the save command acts on. *)
Record Desk : Type := {
  clipboard : option jsstring;                (* the system clipboard *)
  saves : list (jsstring * Workspace Data);   (* the calls of [workspaces.save], oldest first *)
  warned : list (Console Reason)
}.

(** The promise the command returns, as far as its chain has run. *)
Inductive Task : Type :=
| AwaitJSON (id : jsstring)       (* [state.toJSON()] is pending *)
| AwaitSave (id : jsstring)       (* [workspaces.save(id, ...)] is pending *)
| Done (r : settled unit Reason).

(** [execute] of the save command, up to the call of [state.toJSON()]. *)
Definition saveState (date : Date) (w : Desk) : Task * Desk :=
  let format := lit "YYYYMMDDHHmm-x" in
  let id := Time_format date format in
  let url := URLExt_join workspacesUrl id in
  (AwaitJSON id,
   {| clipboard := Some url;      (* Clipboard.copyToSystem(url) *)
      saves := saves w; warned := warned w |}).

(** The [catch] callback: it warns and returns nothing, which fulfils the
    promise. *)
Definition save_failed (reason : Reason) (w : Desk) : Task * Desk :=
  (Done (Fulfilled tt),
   {| clipboard := clipboard w; saves := saves w;
      warned := warned w ++ [Warn (lit "Saving workspace failed.") reason] |}).

(** [state.toJSON()] has settled: the [then] callback calls
    [workspaces.save(id, { data, metadata })], a rejection goes to [catch]. *)
Definition serialized (id : jsstring) (r : settled Data Reason) (w : Desk)
  : Task * Desk :=
  match r with
  | Fulfilled d =>
      (AwaitSave id,
       {| clipboard := clipboard w;
          saves := saves w ++ [(id, {| data := d; metadata := id |})];
          warned := warned w |})
  | Rejected reason => save_failed reason w
  end.

(** [workspaces.save] has settled. *)
Definition saved (r : settled unit Reason) (w : Desk) : Task * Desk :=
  match r with
  | Fulfilled _ => (Done (Fulfilled tt), w)
  | Rejected reason => save_failed reason w
  end.

(** What the environment answers to the pending call. *)
Inductive Answer : Type :=
| Serialized (r : settled Data Reason)
| Saved (r : settled unit Reason).

Definition advance (tw : Task * Desk) (a : Answer) : Task * Desk :=
  match fst tw, a with
  | AwaitJSON id, Serialized r => serialized id r (snd tw)
  | AwaitSave _, Saved r => saved r (snd tw)
  | _, _ => tw
  end.

End Save.

Arguments clipboard {Data Reason} _.
Arguments saves {Data Reason} _.
Arguments warned {Data Reason} _.
Arguments AwaitJSON {Reason} id.
Arguments AwaitSave {Reason} id.
Arguments Done {Reason} r.
Arguments saveState {Data Reason Date} Time_format URLExt_join workspacesUrl date w.
Arguments save_failed {Data Reason} reason w.
Arguments serialized {Data Reason} id r w.
Arguments saved {Data Reason} r w.
Arguments Serialized {Data Reason} r.
Arguments Saved {Data Reason} r.
Arguments advance {Data Reason} tw a.

End StateDB.

(** * Properties *)

(** ** The workspace pattern *)

Section Pattern.

Import StateDB.

Lemma strip_app (p s : jsstring) : strip p (p ++ s) = Some s.
Proof.
  induction p as [|a p IH]; simpl; [reflexivity|].
  now rewrite N.eqb_refl.
Qed.

Lemma strip_inv (p s tail : jsstring) : strip p s = Some tail -> s = p ++ tail.
Proof.
  revert s; induction p as [|a p IH]; intros s; simpl.
  - now intros [= ->].
  - destruct s as [|b s]; [discriminate|].
    destruct (N.eqb_spec a b) as [->|]; [|discriminate].
    intros H; now rewrite (IH _ H).
Qed.

Lemma take_dots_all (s : jsstring) : Forall (fun c => dot c = true) (take_dots s).
Proof.
  induction s as [|c s IH]; simpl; [constructor|].
  destruct (dot c) eqn:E; constructor; assumption.
Qed.

(** What [.+] leaves behind is empty or starts with a line terminator. *)
Lemma take_dots_split (s : jsstring) :
  exists tail, s = take_dots s ++ tail /\
    match tail with [] => True | c :: _ => is_line_terminator c = true end.
Proof.
  induction s as [|c s (tail & Hs & Ht)]; simpl.
  - now exists [].
  - destruct (dot c) eqn:E.
    + exists tail; split; [simpl; congruence | assumption].
    + exists (c :: s); split; [reflexivity|].
      unfold dot in E. now destruct (is_line_terminator c).
Qed.

Lemma take_dots_greedy (w tail : jsstring) :
  Forall (fun c => dot c = true) w ->
  match tail with [] => True | c :: _ => is_line_terminator c = true end ->
  take_dots (w ++ tail) = w.
Proof.
  intros Hw Ht; induction Hw as [|c w Hc _ IH]; simpl.
  - destruct tail as [|c tail]; [reflexivity|]; simpl.
    unfold dot; now rewrite Ht.
  - now rewrite Hc, IH.
Qed.

(** The matcher computes the pattern. *)
Lemma pattern_match_Matches (s w : jsstring) :
  pattern_match s = Some w <-> Matches s w.
Proof.
  unfold pattern_match, Matches; split.
  - destruct (strip _ s) as [rest|] eqn:Hs; [|discriminate].
    apply strip_inv in Hs.
    destruct (take_dots_split rest) as (tail & Hrest & Ht).
    pose proof (take_dots_all rest) as Hall.
    destruct (take_dots rest) as [|c w'] eqn:Hd; [discriminate|].
    intros [= <-]. exists tail; repeat split; try assumption; [|discriminate].
    now rewrite Hs, Hrest.
  - intros (tail & -> & Hne & Hall & Ht).
    rewrite strip_app, take_dots_greedy by assumption.
    destruct w; [contradiction | reflexivity].
Qed.

Lemma pattern_match_None (s : jsstring) :
  pattern_match s = None <-> forall w, ~ Matches s w.
Proof.
  split.
  - intros H w Hm. apply pattern_match_Matches in Hm. congruence.
  - intros H. destruct (pattern_match s) as [w|] eqn:E; [|reflexivity].
    apply pattern_match_Matches in E. now destruct (H w).
Qed.

Lemma Matches_slash : forall w, ~ Matches (lit "/") w.
Proof. now apply pattern_match_None. Qed.

End Pattern.

(** ** The load command *)

Section LoadCommand.

Import StateDB.

Variable Data : Type.
Variable Reason : Type.
Variable base : jsstring.

Implicit Types (s : State Data Reason) (path : option jsstring).

Lemma loadState_unmatched path s :
  pattern_match (or_empty path) = None -> loadState base path s = (Threw, s).
Proof. unfold loadState; now intros ->. Qed.

(** Past the match the group is never empty, so the command goes on to
    the fetch. *)
Lemma loadState_matched path s (w : jsstring) :
  pattern_match (or_empty path) = Some w ->
  w <> [] /\
  loadState base path s =
    (Fetching w,
     {| resolved := true; registered := registered s;
        connected := connected s; resolves := resolves s;
        fetching := fetching s ++ [w]; url := base;
        console := console s |}).
Proof.
  intros Hm. pose proof Hm as (tail & _ & Hne & _)%pattern_match_Matches.
  split; [assumption|].
  unfold loadState; rewrite Hm. destruct w; [contradiction | reflexivity].
Qed.

(** C10. Executing the load command with a path that does not match
    [^/workspaces/(.+)], the absent and the empty path among them, throws
    and changes nothing; with a path that matches, the extracted workspace
    id is not empty and the command goes on to fetch it; the branch that
    reports that no workspace was found is never taken. *)
Theorem load_unmatched_path_throws path s :
  ((forall w, ~ Matches (or_empty path) w) ->
     loadState base path s = (Threw, s)) /\
  (forall w, Matches (or_empty path) w ->
     w <> [] /\ fst (loadState base path s) = Fetching w) /\
  fst (loadState base path s) <> NoWorkspace /\
  loadState base None s = (Threw, s) /\
  loadState base (Some []) s = (Threw, s).
Proof.
  repeat split.
  - intros H%pattern_match_None. now apply loadState_unmatched.
  - now apply pattern_match_Matches, (loadState_matched _ s) in H.
  - apply pattern_match_Matches, (loadState_matched _ s) in H.
    destruct H as [_ ->]; reflexivity.
  - destruct (pattern_match (or_empty path)) as [w|] eqn:E.
    + destruct (loadState_matched _ s _ E) as [_ ->]; discriminate.
    + rewrite (loadState_unmatched _ _ E); discriminate.
Qed.

(** C3. With the path [/workspaces/abc] the load command extracts the id
    [abc] and starts a fetch of it, resolving nothing yet; when the fetch
    is fulfilled the transform is resolved with [overwrite] and the data
    fetched, and when it is rejected the transform is resolved with
    [cancel] and [null] and a warning is written to the console. *)
Theorem load_workspace_fetch_outcomes s (session : Workspace Data)
    (reason : Reason) :
  let abc := lit "abc" in
  let s1 := snd (loadState base (Some (lit "/workspaces/abc")) s) in
  fst (loadState base (Some (lit "/workspaces/abc")) s) = Fetching abc /\
  fetching s1 = fetching s ++ [abc] /\
  resolves s1 = resolves s /\
  resolves (fetched abc (Fulfilled session) s1) =
    resolves s ++ [{| type := overwrite; contents := Some (data session) |}] /\
  console (fetched abc (Fulfilled session) s1) = console s /\
  resolves (fetched abc (Rejected reason) s1) =
    resolves s ++ [{| type := cancel; contents := None |}] /\
  console (fetched abc (Rejected reason) s1) =
    console s ++ [Warn (lit "Fetching workspace (abc) failed.") reason] /\
  (forall u,
     transform (run (Reason := Reason) base (activate u)
                  [Execute (Some (lit "/workspaces/abc"));
                   Settle 0 (Fulfilled session)]) =
       Some {| type := overwrite; contents := Some (data session) |} /\
     transform (run (Data := Data) base (activate u)
                  [Execute (Some (lit "/workspaces/abc"));
                   Settle 0 (Rejected reason)]) =
       Some {| type := cancel; contents := None |}).
Proof. repeat split. Qed.

(** C4. When the path does not match the workspace pattern, as [/] does
    not, the first routing event resolves the transform with [cancel] and
    [null] and leaves the browser's URL as it was, whether or not the load
    command was executed with that path before the event; nothing but the
    notice that no workspace was requested reaches the console. *)
Theorem unmatched_route_cancels (u : jsstring) path (t : list (Event Data Reason)) :
  (forall w, ~ Matches (or_empty path) w) ->
  t = [Routed] \/ t = [Execute path; Routed] ->
  let s := run base (activate u) t in
  resolves s = [{| type := cancel; contents := None |}] /\
  transform s = Some {| type := cancel; contents := None |} /\
  url s = u /\
  console s =
    [Log (lit "No workspace requested. Leaving state database intact.")].
Proof.
  intros H%pattern_match_None [-> | ->]; simpl.
  - repeat split.
  - rewrite (loadState_unmatched _ _ H); simpl. repeat split.
Qed.

End LoadCommand.

(** ** The transform of the state database *)

Section Transform.

Import StateDB.

Variable Data : Type.
Variable Reason : Type.
Variable base : jsstring.

Implicit Types (s : State Data Reason) (e : Event Data Reason)
  (t : list (Event Data Reason)).

Lemma run_snoc s t e : run base s (t ++ [e]) = step base (run base s t) e.
Proof. unfold run; now rewrite fold_left_app. Qed.

Lemma run_cons s t e : run base s (e :: t) = run base (step base s e) t.
Proof. reflexivity. Qed.

Lemma executions_snoc t e :
  executions (t ++ [e]) =
    (executions t + match e with Execute _ => 1 | _ => 0 end)%nat.
Proof.
  induction t as [|e' t IH]; simpl.
  - destruct e; reflexivity.
  - destruct e'; simpl; rewrite IH; reflexivity.
Qed.

Lemma routings_snoc t e :
  routings (t ++ [e]) =
    (routings t + match e with Routed => 1 | _ => 0 end)%nat.
Proof.
  induction t as [|e' t IH]; simpl.
  - destruct e; reflexivity.
  - destruct e'; simpl; rewrite IH; reflexivity.
Qed.

(** No callback takes back a call of [transform.resolve]. *)
Lemma step_resolves s e : exists l, resolves (step base s e) = resolves s ++ l.
Proof.
  destruct e as [|path|n r]; simpl.
  - destruct (connected s); [|exists []; now rewrite app_nil_r].
    unfold unload; simpl. destruct (resolved s); simpl; eauto.
    exists []; now rewrite app_nil_r.
  - destruct (registered s); [|exists []; now rewrite app_nil_r].
    destruct (pattern_match (or_empty path)) as [w|] eqn:E.
    + destruct (loadState_matched _ _ base path s w E) as [_ ->]; simpl.
      exists []; now rewrite app_nil_r.
    + rewrite (loadState_unmatched _ _ base path s E); simpl.
      exists []; now rewrite app_nil_r.
  - destruct (fetching s !! n); [|exists []; now rewrite app_nil_r].
    destruct r; simpl; eauto.
Qed.

(** The promise keeps its first value through whatever happens next. *)
Lemma transform_stable s t (v : DataTransform Data) :
  transform s = Some v -> transform (run base s t) = Some v.
Proof.
  revert s; induction t as [|e t IH]; intros s H; [assumption|].
  rewrite run_cons. apply IH.
  destruct (step_resolves s e) as [l Hl].
  unfold transform in *. rewrite Hl, head_app, H. reflexivity.
Qed.

(** Rewrites the flags that a case analysis has settled, then leaves the
    rest to propositional reasoning and arithmetic. *)
Ltac settle_flags :=
  simpl; rewrite ?length_app; simpl;
  repeat match goal with
         | H : ?b = true, H' : context [if ?b then _ else _] |- _ =>
             rewrite H in H'
         | H : ?b = false, H' : context [if ?b then _ else _] |- _ =>
             rewrite H in H'
         end;
  intuition
    (repeat match goal with
            | H : ?b = true |- context [if ?b then _ else _] => rewrite H
            | H : ?b = false |- context [if ?b then _ else _] => rewrite H
            | H : StateDB.fetching _ = [] |- _ => rewrite H
            end;
     simpl; try congruence; try lia).

(** What holds after every course of events since the activation. *)
Lemma activation_invariant (u : jsstring) t :
  let s := run base (activate u) t in
  registered s = connected s /\
  (connected s = true <-> routings t = 0%nat) /\
  (resolved s = false ->
     fetching s = [] /\
     length (resolves s) = if connected s then 0%nat else 1%nat) /\
  (resolved s = true ->
     (1 <= length (resolves s) + length (fetching s) <= executions t)%nat).
Proof.
  induction t as [|e t IH] using rev_ind; [simpl; intuition congruence|].
  rewrite run_snoc, executions_snoc, routings_snoc.
  set (s := run base (activate u) t) in *. simpl in IH.
  destruct IH as (Hreg & Hcon & Hno & Hyes).
  destruct e as [|path|n r]; simpl.
  - (* the router emits [routed] *)
    destruct (connected s) eqn:Ec; [unfold unload; simpl|];
      destruct (resolved s) eqn:Er; settle_flags.
  - (* the load command is executed *)
    destruct (registered s) eqn:Eg;
      [destruct (pattern_match (or_empty path)) as [w|] eqn:E;
       [destruct (loadState_matched _ _ base path s w E) as [_ ->]
       |rewrite (loadState_unmatched _ _ base path s E)]|];
      destruct (resolved s) eqn:Er; destruct (connected s) eqn:Ec;
      settle_flags.
  - (* a fetch settles *)
    destruct (fetching s !! n) as [w|] eqn:En.
    + assert (resolved s = true) as Er.
      { destruct (resolved s) eqn:Er; [reflexivity|].
        destruct (Hno eq_refl) as [Hf _]. rewrite Hf in En; discriminate. }
      assert (length (delete n (fetching s)) = (length (fetching s) - 1)%nat)
        as Hd by (apply length_delete; eauto).
      apply lookup_lt_Some in En. specialize (Hyes Er).
      destruct (connected s) eqn:Ec; destruct r; settle_flags.
    + destruct (connected s) eqn:Ec; destruct (resolved s) eqn:Er;
        settle_flags.
Qed.

Lemma matched_loads_snoc t e :
  matched_loads (t ++ [e]) =
    (matched_loads t +
     match routings t, e with
     | O, Execute path =>
         match pattern_match (or_empty path) with Some _ => 1 | None => 0 end
     | _, _ => 0
     end)%nat.
Proof.
  induction t as [|e' t IH]; simpl.
  - destruct e as [|path|n r]; reflexivity.
  - destruct e' as [|path'|n' r']; simpl.
    + reflexivity.
    + rewrite IH. destruct (pattern_match (or_empty path')); reflexivity.
    + exact IH.
Qed.

(** Every execution of the load command past its match accounts for one
    fetch in flight or one call of [transform.resolve]. *)
Lemma resolve_calls_counted (u : jsstring) t :
  let s := run base (activate u) t in
  (resolved s = false -> matched_loads t = 0%nat) /\
  (resolved s = true ->
     (length (resolves s) + length (fetching s))%nat = matched_loads t /\
     (1 <= matched_loads t)%nat).
Proof.
  induction t as [|e t IH] using rev_ind; [simpl; intuition congruence|].
  rewrite run_snoc, matched_loads_snoc.
  destruct (activation_invariant u t) as (Hreg & Hcon & Hno & _).
  set (s := run base (activate u) t) in *. simpl in IH, Hreg, Hcon, Hno.
  destruct IH as [Hzero Hcount].
  destruct e as [|path|n r]; simpl.
  - (* the router emits [routed] *)
    assert (match routings t with 0%nat | _ => 0%nat end = 0%nat) as ->
      by (now destruct (routings t)).
    rewrite Nat.add_0_r.
    destruct (connected s) eqn:Ec; [unfold unload; simpl|];
      destruct (resolved s) eqn:Er; simpl; rewrite ?Er;
      intuition (try discriminate; try congruence).
  - (* the load command is executed *)
    destruct (registered s) eqn:Eg.
    + assert (routings t = 0%nat) as -> by (apply Hcon; congruence).
      destruct (pattern_match (or_empty path)) as [w|] eqn:E.
      * destruct (loadState_matched _ _ base path s w E) as [_ ->]; simpl.
        split; [discriminate|]. intros _. rewrite length_app; simpl.
        destruct (resolved s) eqn:Er.
        -- destruct (Hcount eq_refl) as [Hn Hp]. lia.
        -- destruct (Hno eq_refl) as [Hf Hl].
           rewrite <- Hreg in Hl. rewrite Hf, Hl, (Hzero eq_refl). simpl. lia.
      * rewrite (loadState_unmatched _ _ base path s E), Nat.add_0_r.
        intuition (try discriminate; try congruence).
    + assert (routings t <> 0%nat) as Hr
        by (intros H; apply Hcon in H; congruence).
      destruct (routings t); [contradiction|].
      rewrite Nat.add_0_r. intuition (try discriminate; try congruence).
  - (* a fetch settles *)
    assert (match routings t with 0%nat | _ => 0%nat end = 0%nat) as ->
      by (now destruct (routings t)).
    rewrite Nat.add_0_r.
    destruct (fetching s !! n) as [w|] eqn:En;
      [|intuition (try discriminate; try congruence)].
    assert (resolved s = true) as Er.
    { destruct (resolved s) eqn:Er; [reflexivity|].
      destruct (Hno eq_refl) as [Hf _]. rewrite Hf in En; discriminate. }
    assert (length (delete n (fetching s)) = (length (fetching s) - 1)%nat)
      as Hd by (apply length_delete; eauto).
    apply lookup_lt_Some in En. destruct (Hcount Er) as [Hn Hp].
    destruct r; simpl; rewrite Er, length_app; simpl;
      (split; [discriminate | intros _; split; lia]).
Qed.

(** C1, as amended. Take any course of events after an activation, and a
    moment at which no workspace fetch is in flight. If the routing event
    has fired, or the load command has run past its match, the transform
    promise is resolved exactly once: it holds the value of the first
    call of [transform.resolve] and keeps it whatever happens next, the
    routing event firing any number of times, the load command being
    executed or not. [transform.resolve] itself has then been called
    once, or once per execution of the load command that ran past its
    match while the command was registered, when there are several. If
    the routing event has not fired and the load command has not run past
    its match, the transform has not been resolved. *)
Theorem transform_resolves_once (u : jsstring) t :
  let s := run base (activate u) t in
  fetching s = [] ->
  if (0 <? routings t)%nat || resolved s
  then (exists v, transform s = Some v /\
                  forall t', transform (run base s t') = Some v) /\
       length (resolves s) = Nat.max 1 (matched_loads t)
  else resolves s = [].
Proof.
  intros s Hf.
  destruct (activation_invariant u t) as (_ & Hcon & Hno & _).
  destruct (resolve_calls_counted u t) as [Hzero Hcount].
  fold s in Hcon, Hno, Hzero, Hcount. rewrite Hf in Hcount; simpl in Hcount.
  destruct ((0 <? routings t)%nat || resolved s) eqn:Eb.
  - assert (length (resolves s) = Nat.max 1 (matched_loads t)) as Hlen.
    { destruct (resolved s) eqn:Er.
      - destruct (Hcount eq_refl) as [Hn Hp]. lia.
      - rewrite orb_false_r in Eb. apply Nat.ltb_lt in Eb.
        destruct (Hno eq_refl) as [_ Hl]. rewrite (Hzero eq_refl).
        destruct (connected s).
        + destruct Hcon as [Hcon _]. specialize (Hcon eq_refl); lia.
        + exact Hl. }
    split; [|assumption].
    unfold transform. destruct (resolves s) as [|v l] eqn:El;
      [simpl in Hlen; lia|].
    exists v; split; [reflexivity|].
    intros t'; apply transform_stable. unfold transform. now rewrite El.
  - apply orb_false_iff in Eb as [Hr%Nat.ltb_ge Er].
    destruct (Hno Er) as [_ Hl].
    assert (connected s = true) as Ec by (apply Hcon; lia).
    rewrite Ec in Hl. now destruct (resolves s).
Qed.

End Transform.

(** C1, as stated, fails twice over. After an activation that no routing
    event and no execution of the load command follows, no fetch is in
    flight and [transform.resolve] has not been called. And when the load
    command is executed twice with a path that matches before the routing
    event, [transform.resolve] is called once for either fetch. *)
Lemma transform_unresolved_without_route :
  ~ (forall t : list (StateDB.Event unit unit),
       (StateDB.routings t <= 1)%nat ->
       let s := StateDB.run (lit "/lab") (StateDB.activate (lit "/lab")) t in
       StateDB.fetching s = [] -> length (StateDB.resolves s) = 1%nat) /\
  StateDB.resolves
    (StateDB.run (Data := unit) (Reason := unit) (lit "/lab")
       (StateDB.activate (lit "/lab")) []) = [] /\
  (let t := [StateDB.Execute (Some (lit "/workspaces/a"));
             StateDB.Execute (Some (lit "/workspaces/b"));
             StateDB.Routed;
             StateDB.Settle 0
               (Fulfilled {| StateDB.data := tt; StateDB.metadata := lit "a" |});
             StateDB.Settle 0 (Rejected tt)] in
   let s := StateDB.run (lit "/lab") (StateDB.activate (lit "/lab")) t in
   StateDB.routings t = 1%nat /\ StateDB.fetching s = [] /\
   length (StateDB.resolves s) = 2%nat).
Proof.
  split; [|repeat split].
  intros H.
  specialize (H [] (Nat.le_0_l _) eq_refl).
  discriminate H.
Qed.

(** A course of events for [transform_resolves_once]: the router executes
    the load command for [/workspaces/abc], emits [routed], and the fetch
    is fulfilled. *)
Lemma transform_resolves_once_witness :
  length
    (StateDB.resolves
       (StateDB.run (Reason := unit) (lit "/lab")
          (StateDB.activate (lit "/lab/workspaces/abc"))
          [StateDB.Execute (Some (lit "/workspaces/abc")); StateDB.Routed;
           StateDB.Settle 0
             (Fulfilled {| StateDB.data := 7; StateDB.metadata := lit "abc" |})]))
  = 1%nat.
Proof.
  exact (proj2 (transform_resolves_once Z unit (lit "/lab")
                  (lit "/lab/workspaces/abc")
                  [StateDB.Execute (Some (lit "/workspaces/abc"));
                   StateDB.Routed;
                   StateDB.Settle 0
                     (Fulfilled {| StateDB.data := 7;
                                   StateDB.metadata := lit "abc" |})]
                  eq_refl)).
Defined.

(** ** The splash screen *)

Section Splash.

Import Private.

Implicit Types (s : State) (e : Event) (t : list Event).

Lemma splash_run_snoc s t e : run s (t ++ [e]) = step (run s t) e.
Proof. unfold run; now rewrite fold_left_app. Qed.

(** Timer callbacks touch neither the element's classes nor the count. *)
Lemma removals_keep (l : list N) s :
  let s' := fold_left (fun s0 _ => removeChild s0) l s in
  splash s' = splash s /\ splashCount s' = splashCount s /\
  fade s' = fade s /\ handles s' = handles s /\ timers s' = timers s.
Proof.
  revert s; induction l as [|x l IH]; intros s; simpl; [tauto|].
  destruct (IH (removeChild s)) as (-> & -> & -> & -> & ->). tauto.
Qed.

Lemma elapse_keeps (d : N) s :
  splash (elapse d s) = splash s /\
  splashCount (elapse d s) = splashCount s /\
  fade (elapse d s) = fade s /\
  handles (elapse d s) = handles s /\
  (length (timers (elapse d s)) <= length (timers s))%nat.
Proof.
  unfold elapse.
  match goal with |- context [fold_left ?f ?l ?s0] =>
    destruct (removals_keep l s0) as (-> & -> & -> & -> & ->) end.
  simpl. repeat split. apply length_filter.
Qed.

(** After any course of events the count is not negative, and the element
    exists as soon as a handle does. *)
Lemma splash_invariant t :
  let s := run init t in
  0 <= splashCount s /\ (handles s <> [] -> splash s = true).
Proof.
  induction t as [|e t IH] using rev_ind; [simpl; split; [lia | congruence]|].
  rewrite splash_run_snoc. set (s := run init t) in *. simpl in IH.
  destruct IH as [Hc Hs]. destruct e as [|h|d]; simpl.
  - split; [lia | reflexivity].
  - unfold dispose. destruct (handles s !! h) as [[|]|] eqn:Eh; try tauto.
    unfold release; simpl.
    destruct ((Z.max (splashCount s - 1) 0 =? 0) && splash s); simpl;
      (split; [lia|]); intros _; apply Hs; intros E; now rewrite E in Eh.
  - destruct (elapse_keeps d s) as (-> & -> & _ & -> & _). tauto.
Qed.

(** C8. After any sequence of [show()] calls, disposals and passing time
    the splash count is not negative. Disposing a live handle sets the
    count to [max(count - 1, 0)]; when that is zero the fade class is
    added and one removal is scheduled 500 ms from now, and otherwise
    neither happens. Disposing a handle again does nothing. No other event adds the fade class or schedules a
    removal: whenever either happens the count has just become zero. *)
Theorem splash_count_never_negative t e :
  let s := run init t in
  let s' := step s e in
  0 <= splashCount s /\
  (forall h, e = Dispose h -> handles s !! h = Some false ->
     splashCount s' = Z.max (splashCount s - 1) 0 /\
     (splashCount s' = 0 ->
        fade s' = true /\ timers s' = timers s ++ [(now s + 500)%N]) /\
     (splashCount s' <> 0 -> fade s' = fade s /\ timers s' = timers s)) /\
  (forall h, e = Dispose h -> handles s !! h <> Some false -> s' = s) /\
  ((fade s = false /\ fade s' = true) \/
   (length (timers s) < length (timers s'))%nat ->
   splashCount s' = 0 /\
   exists h, e = Dispose h /\ handles s !! h = Some false).
Proof.
  intros s s'. destruct (splash_invariant t) as [Hc Hs]. fold s in Hc, Hs.
  split; [assumption|]. split; [|split].
  - intros h -> Eh. subst s'; simpl. unfold dispose; rewrite Eh.
    assert (splash s = true) as Hsp
      by (apply Hs; intros E; now rewrite E in Eh).
    unfold release; simpl; rewrite Hsp, andb_true_r.
    destruct (Z.eqb_spec (Z.max (splashCount s - 1) 0) 0) as [E|E]; simpl;
      repeat split; try tauto; try lia.
  - intros h -> Eh. subst s'; simpl. unfold dispose.
    destruct (handles s !! h) as [[|]|]; congruence.
  - subst s'. destruct e as [|h|d]; simpl.
    + intros [[_ H] | H]; [discriminate | lia].
    + unfold dispose. destruct (handles s !! h) as [[|]|] eqn:Eh;
        [intros [[H1 H2] | H]; [congruence | lia] | |
         intros [[H1 H2] | H]; [congruence | lia]].
      unfold release; simpl.
      destruct (Z.eqb_spec (Z.max (splashCount s - 1) 0) 0) as [E|E];
        destruct (splash s); simpl;
        (intros [[H1 H2] | H]; [try congruence | try lia]); eauto.
    + destruct (elapse_keeps d s) as (_ & _ & -> & _ & Hl).
      intros [[H1 H2] | H]; [congruence | lia].
Qed.

(** C2. The sequence show, dispose, show, then 500 ms: the removal that
    the disposal scheduled is not cancelled by the second [show()], runs,
    and detaches the overlay while the count is one. *)
Theorem splash_removed_while_counted :
  let s := run init [Show; Dispose 0; Show; Elapse 500] in
  splashCount s = 1 /\ attached s = false /\ timers s = [] /\
  ~ attached_iff_counted s.
Proof.
  simpl. repeat split. intros [H _]. now specialize (H eq_refl).
Qed.

End Splash.

(** ** The settings connector *)

Section Settings.

Import SettingsConnector.

Variable Rest : Type.
Variable Reason : Type.

(** C5. [fetch(id)] is fulfilled exactly when the remote fetch is, with
    the remote bundle whose id is replaced by the requested one, whatever
    id the remote service answered with; a rejection of the remote fetch
    is the rejection of [fetch(id)]. *)
Theorem fetch_restores_requested_id (m : ServiceManager Rest Reason)
    (i : jsstring) :
  match settings_fetch m i with
  | Fulfilled remote =>
      fetch m i = Fulfilled {| id := i; rest := rest remote |}
  | Rejected reason => fetch m i = Rejected reason
  end /\
  match fetch m i with
  | Fulfilled bundle => id bundle = i
  | Rejected reason => settings_fetch m i = Rejected reason
  end.
Proof. unfold fetch. destruct (settings_fetch m i); simpl; split; reflexivity. Qed.

End Settings.

(** ** The change-theme command *)

Section ChangeTheme.

Import Themes.

Variable Num : Type.
Variable num_to_string : Num -> jsstring.
Variable num_truthy : Num -> bool.
Variable Manager : Type.
Variable theme : Manager -> option jsstring.
Variable setTheme : value Num -> Manager -> Manager.

Implicit Types (args : Args Num) (m : Manager).

(** Strict equality with the current theme decides equality of values. *)
Lemma strict_eq_name_spec (v : value Num) (cur : option jsstring) :
  strict_eq_name v cur = true <-> v = of_name cur.
Proof.
  destruct v as [[]|], cur; simpl; split; try congruence; try discriminate.
  - intros H%bool_decide_eq_true; congruence.
  - intros [= ->]; now apply bool_decide_eq_true.
Qed.

(** C6. Executing the command with the manager's current theme leaves the
    manager as it is and calls nothing on it; with any other value it
    calls [setTheme] with that value, once. *)
Theorem change_theme_active_is_noop args m :
  (args !! lit "theme" = of_name (theme m) ->
     execute theme setTheme args m = (m, [])) /\
  (args !! lit "theme" <> of_name (theme m) ->
     execute theme setTheme args m =
       (setTheme (args !! lit "theme") m, [SetTheme (args !! lit "theme")])).
Proof.
  unfold execute.
  destruct (strict_eq_name (args !! lit "theme") (theme m)) eqn:E.
  - apply strict_eq_name_spec in E. split; [reflexivity | contradiction].
  - split; [|reflexivity].
    intros H%strict_eq_name_spec; congruence.
Qed.

(** C7. The label is the value of [theme] itself when [isPalette] is
    [false], and the string made of [Use], the theme and [Theme] when
    [isPalette] is [true], a theme that is a string being rendered as it
    is; the command is toggled exactly when the [theme] argument is the
    manager's current theme. *)
Theorem change_theme_label_toggled args m :
  (args !! lit "isPalette" = Some (JBool false) ->
     label num_to_string num_truthy args = args !! lit "theme") /\
  (args !! lit "isPalette" = Some (JBool true) ->
     label num_to_string num_truthy args =
       Some (JStr (lit "Use " ++ to_string num_to_string (args !! lit "theme")
                     ++ lit " Theme"))) /\
  (forall name, args !! lit "theme" = Some (JStr name) ->
     to_string num_to_string (args !! lit "theme") = name) /\
  (isToggled theme args m = true <->
     args !! lit "theme" = of_name (theme m)).
Proof.
  unfold label, isToggled. repeat split.
  - now intros ->.
  - now intros ->.
  - now intros name ->.
  - now intros H%strict_eq_name_spec.
  - now intros H%strict_eq_name_spec.
Qed.

End ChangeTheme.

(** ** The save command *)

Section SaveCommand.

Import StateDB.

Variable Data : Type.
Variable Reason : Type.
Variable Date : Type.
Variable Time_format : Date -> jsstring -> jsstring.
Variable URLExt_join : jsstring -> jsstring -> jsstring.
Variable workspacesUrl : jsstring.

Implicit Types (w : Desk Data Reason) (a : Answer Data Reason).

(** A chain that is not rejected stays so. *)
Lemma advance_not_rejected (tw : Task Reason * Desk Data Reason) a :
  (forall reason, fst tw <> Done (Rejected reason)) ->
  forall reason, fst (advance tw a) <> Done (Rejected reason).
Proof.
  intros H reason. unfold advance.
  destruct tw as [[id|id|r] w]; destruct a as [[d|r']|[[]|r']]; simpl in *;
    try discriminate; apply H.
Qed.

Lemma advance_clipboard (tw : Task Reason * Desk Data Reason) a :
  clipboard (snd (advance tw a)) = clipboard (snd tw).
Proof.
  unfold advance.
  destruct tw as [[id|id|r] w]; destruct a as [[d|r']|[[]|r']]; reflexivity.
Qed.

(** C9. The save command formats the date with [YYYYMMDDHHmm-x] as the
    workspace id and puts the workspace URL for that id on the clipboard
    before it returns, when no save has been requested yet. When the store
    has been serialized it requests the save of the data under that id,
    with the id as metadata. A rejected serialization or a rejected save
    is answered by a warning on the console, and the promise the command
    returned is fulfilled: however its calls settle, it is never rejected,
    and the clipboard keeps the URL. Run as a chain: when the
    serialization is rejected the command warns with the reason, requests
    no save and its promise is fulfilled; when the save is rejected the
    command has requested the save, warns with the reason and its promise
    is fulfilled; when both are fulfilled the save is requested, nothing
    is written to the console and the promise is fulfilled. So the promise
    is fulfilled as soon as the serialization and the save have settled,
    and nothing happens after that. *)
Theorem save_command_contract (date : Date) w :
  let id := Time_format date (lit "YYYYMMDDHHmm-x") in
  let link := URLExt_join workspacesUrl id in
  let start := saveState Time_format URLExt_join workspacesUrl date w in
  fst start = AwaitJSON id /\
  clipboard (snd start) = Some link /\
  saves (snd start) = saves w /\
  warned (snd start) = warned w /\
  (forall d,
     advance start (Serialized (Fulfilled d)) =
       (AwaitSave id,
        {| clipboard := Some link;
           saves := saves w ++ [(id, {| data := d; metadata := id |})];
           warned := warned w |})) /\
  (forall w' reason,
     serialized id (Rejected reason) w' = save_failed reason w' /\
     saved (Rejected reason) w' = save_failed reason w' /\
     save_failed reason w' =
       (Done (Fulfilled tt),
        {| clipboard := clipboard w'; saves := saves w';
           warned := warned w' ++ [Warn (lit "Saving workspace failed.") reason] |})) /\
  (forall answers : list (Answer Data Reason),
     (forall reason,
        fst (fold_left advance answers start) <> Done (Rejected reason)) /\
     clipboard (snd (fold_left advance answers start)) = Some link) /\
  (forall reason,
     fold_left advance [Serialized (Rejected reason)] start =
       (Done (Fulfilled tt),
        {| clipboard := Some link; saves := saves w;
           warned := warned w ++ [Warn (lit "Saving workspace failed.") reason] |})) /\
  (forall d reason,
     fold_left advance [Serialized (Fulfilled d); Saved (Rejected reason)] start =
       (Done (Fulfilled tt),
        {| clipboard := Some link;
           saves := saves w ++ [(id, {| data := d; metadata := id |})];
           warned := warned w ++ [Warn (lit "Saving workspace failed.") reason] |})) /\
  (forall d,
     fold_left advance [Serialized (Fulfilled d); Saved (Fulfilled tt)] start =
       (Done (Fulfilled tt),
        {| clipboard := Some link;
           saves := saves w ++ [(id, {| data := d; metadata := id |})];
           warned := warned w |})) /\
  (forall (rj : settled Data Reason) (rs : settled unit Reason),
     fst (fold_left advance [Serialized rj; Saved rs] start)
       = Done (Fulfilled tt)) /\
  (forall (answers : list (Answer Data Reason)) (r : settled unit Reason) w',
     fold_left advance answers (Done r, w') = (Done r, w')).
Proof.
  intros id link start.
  split; [reflexivity|]. split; [reflexivity|]. split; [reflexivity|].
  split; [reflexivity|]. split; [reflexivity|].
  split; [intros w' reason; repeat split|].
  split; [intros answers; split|].
  - induction answers as [|a l IH] using rev_ind; [discriminate|].
    rewrite fold_left_app; simpl. now apply advance_not_rejected.
  - induction answers as [|a l IH] using rev_ind; [reflexivity|].
    rewrite fold_left_app; simpl. now rewrite advance_clipboard.
  - split; [reflexivity|]. split; [reflexivity|]. split; [reflexivity|].
    split.
    + intros [d|reason] [[]|reason']; reflexivity.
    + intros answers r w'.
      induction answers as [|a l IH]; [reflexivity|].
      destruct a; exact IH.
Qed.

End SaveCommand.

(** ** The theorems at concrete inputs *)

Section Instances.

Import StateDB.

(** [unmatched_route_cancels] for the path [/]: the router emits [routed]
    after a stray execution of the load command. *)
Lemma unmatched_route_cancels_witness :
  let s := run (Data := Z) (Reason := unit) (lit "/lab") (activate (lit "/lab"))
             [Execute (Some (lit "/")); Routed] in
  transform s = Some {| type := cancel; contents := None |} /\
  url s = lit "/lab".
Proof.
  destruct (unmatched_route_cancels Z unit (lit "/lab") (lit "/lab")
              (Some (lit "/")) [Execute (Some (lit "/")); Routed]
              Matches_slash (or_intror eq_refl)) as (_ & Ht & Hu & _).
  split; assumption.
Defined.

(** [load_unmatched_path_throws] for the path [/] and for a path that
    matches. *)
Lemma load_unmatched_path_throws_witness :
  loadState (lit "/lab") (Some (lit "/")) (activate (lit "/lab"))
    = (Threw, activate (Data := Z) (Reason := unit) (lit "/lab")) /\
  fst (loadState (lit "/lab") (Some (lit "/workspaces/abc"))
         (activate (Data := Z) (Reason := unit) (lit "/lab")))
    = Fetching (lit "abc").
Proof.
  split.
  - apply (proj1 (load_unmatched_path_throws Z unit (lit "/lab")
                    (Some (lit "/")) (activate (lit "/lab")))).
    exact Matches_slash.
  - apply (proj1 (proj2 (load_unmatched_path_throws Z unit (lit "/lab")
                           (Some (lit "/workspaces/abc"))
                           (activate (lit "/lab"))))).
    apply pattern_match_Matches. reflexivity.
Defined.

(** [splash_count_never_negative] for the disposal of the only handle. *)
Lemma splash_count_never_negative_witness :
  let s := Private.run Private.init [Private.Show; Private.Dispose 0] in
  Private.splashCount s = 0 /\ Private.fade s = true /\
  Private.timers s = [500%N].
Proof.
  destruct (splash_count_never_negative [Private.Show] (Private.Dispose 0))
    as (_ & H & _).
  destruct (H 0%nat eq_refl eq_refl) as (Hc & Hz & _).
  split; [exact Hc | exact (Hz Hc)].
Defined.

(** [change_theme_active_is_noop] for a manager that is its current theme:
    asking for Dark under Dark, and under Light. *)
Lemma change_theme_active_is_noop_witness :
  let set := fun (v : value Z) (m : option jsstring) =>
               match v with Some (JStr name) => Some name | _ => m end in
  let args : Themes.Args Z := {[ lit "theme" := JStr (lit "Dark") ]} in
  Themes.execute id set args (Some (lit "Dark")) = (Some (lit "Dark"), []) /\
  Themes.execute id set args (Some (lit "Light")) =
    (Some (lit "Dark"), [Themes.SetTheme (Some (JStr (lit "Dark")))]).
Proof.
  split.
  - apply (proj1 (change_theme_active_is_noop Z (option jsstring) id
                    (fun v m => match v with Some (JStr name) => Some name | _ => m end)
                    {[ lit "theme" := JStr (lit "Dark") ]} (Some (lit "Dark")))).
    reflexivity.
  - refine (eq_trans
              (proj2 (change_theme_active_is_noop Z (option jsstring) id
                        (fun v m => match v with Some (JStr name) => Some name | _ => m end)
                        {[ lit "theme" := JStr (lit "Dark") ]} (Some (lit "Light"))) _)
              _).
    + vm_compute. discriminate.
    + reflexivity.
Defined.

(** [change_theme_label_toggled] for the palette entry of Dark. *)
Lemma change_theme_label_toggled_witness :
  Themes.label (Num := Z) (fun _ => []) (fun n => negb (n =? 0))
    (<[ lit "isPalette" := JBool true ]> {[ lit "theme" := JStr (lit "Dark") ]})
  = Some (JStr (lit "Use Dark Theme")).
Proof.
  refine (eq_trans
            (proj1 (proj2 (change_theme_label_toggled Z (fun _ => [])
                             (fun n => negb (n =? 0)) (option jsstring) id
                             (<[ lit "isPalette" := JBool true ]>
                                {[ lit "theme" := JStr (lit "Dark") ]})
                             None)) _)
            _); reflexivity.
Defined.

End Instances.

(** ** More on the splash screen *)

Section SplashMore.

Import Private.

Implicit Types (s : State) (e : Event) (t : list Event).

Lemma removals_effect (l : list N) s :
  let s' := fold_left (fun s0 _ => removeChild s0) l s in
  attached s' = attached s && (length l =? 0)%nat /\
  uncaught s' =
    (uncaught s + (length l - if attached s then 1 else 0))%nat /\
  now s' = now s.
Proof.
  revert s; induction l as [|x l IH]; intros s; simpl.
  - rewrite andb_true_r. repeat split; lia.
  - destruct (IH (removeChild s)) as (-> & -> & ->); simpl.
    rewrite andb_false_r. destruct (attached s); repeat split; lia.
Qed.

(** X4. When time passes, the first removal that is due detaches the
    overlay and every further one that is due throws, the overlay being no
    child of the body any more; removals not yet due stay pending, and
    neither the count nor the element's classes change. *)
Theorem elapse_first_removal_detaches (d : N) s :
  let s' := elapse d s in
  attached s' = attached s && (due d s =? 0)%nat /\
  uncaught s' =
    (uncaught s + (due d s - if attached s then 1 else 0))%nat /\
  timers s' = filter (fun x => ~ (x <= now s + d)%N) (timers s) /\
  now s' = (now s + d)%N /\
  splashCount s' = splashCount s /\ fade s' = fade s.
Proof.
  unfold elapse, due.
  match goal with |- context [fold_left ?f ?l ?s0] =>
    destruct (removals_effect l s0) as (Ha & Hu & Hn);
    destruct (removals_keep l s0) as (_ & Hc & Hf & _ & Ht) end.
  simpl in *. now rewrite Ha, Hu, Hn, Hc, Hf, Ht.
Qed.

Lemma outstanding_dispose (l : list bool) (h : nat) :
  l !! h = Some false ->
  S (length (List.filter negb (<[h := true]> l))) =
    length (List.filter negb l).
Proof.
  revert h; induction l as [|b l IH]; intros [|h]; simpl; try discriminate.
  - now intros [= ->].
  - intros H. destruct b; simpl; now rewrite <- (IH h H).
Qed.

(** X1. After any course of events the splash count is the number of
    handles that have not been disposed: the floor at zero in the handle
    callback is never reached. *)
Theorem splash_count_is_outstanding t :
  splashCount (run init t) = Z.of_nat (outstanding (run init t)).
Proof.
  unfold outstanding.
  induction t as [|e t IH] using rev_ind; [reflexivity|].
  rewrite splash_run_snoc. set (s := run init t) in *.
  destruct e as [|h|d]; simpl.
  - rewrite List.filter_app, length_app; simpl. lia.
  - unfold dispose. destruct (handles s !! h) as [[|]|] eqn:Eh; try assumption.
    apply outstanding_dispose in Eh.
    unfold release; simpl.
    destruct ((Z.max (splashCount s - 1) 0 =? 0) && splash s); simpl; lia.
  - destruct (elapse_keeps d s) as (_ & -> & _ & -> & _). assumption.
Qed.

(** X2. After any course of events the overlay carries the fade class
    exactly when it has been created and the count is zero: it never fades
    while a handle is outstanding. *)
Theorem splash_fades_iff_released t :
  let s := run init t in
  fade s = true <-> splash s = true /\ splashCount s = 0.
Proof.
  induction t as [|e t IH] using rev_ind; [simpl; intuition congruence|].
  rewrite splash_run_snoc.
  destruct (splash_invariant t) as [Hc _].
  set (s := run init t) in *. simpl in IH.
  destruct e as [|h|d]; simpl.
  - split; [discriminate | lia].
  - unfold dispose. destruct (handles s !! h) as [[|]|]; try assumption.
    unfold release; simpl.
    destruct (Z.eqb_spec (Z.max (splashCount s - 1) 0) 0) as [E|E];
      destruct (splash s) eqn:Es; simpl; rewrite ?Es.
    + tauto.
    + split; [intros H; apply IH in H; destruct H | intros []]; discriminate.
    + split; [intros H; apply IH in H; lia | intros []; lia].
    + split; [intros H; apply IH in H; lia | intros []; discriminate].
  - destruct (elapse_keeps d s) as (-> & -> & -> & _). assumption.
Qed.

(** Every pending removal is due after now and within the fade delay. *)
Lemma timers_window t :
  let s := run init t in
  Forall (fun x => (now s < x <= now s + 500)%N) (timers s).
Proof.
  induction t as [|e t IH] using rev_ind; [constructor|].
  rewrite splash_run_snoc. set (s := run init t) in *. simpl in IH.
  destruct e as [|h|d]; simpl.
  - assumption.
  - unfold dispose. destruct (handles s !! h) as [[|]|]; try assumption.
    unfold release; simpl.
    destruct ((Z.max (splashCount s - 1) 0 =? 0) && splash s); simpl;
      [|assumption].
    apply Forall_app; split; [assumption|].
    constructor; [unfold fade_delay; lia | constructor].
  - destruct (elapse_first_removal_detaches d s) as (_ & _ & -> & -> & _).
    apply Forall_forall. intros x [Hx Hin]%list_elem_of_filter.
    rewrite Forall_forall in IH. specialize (IH x Hin). lia.
Qed.

(** X3. Once the fade delay has passed without further events no removal
    is pending, and if one was pending the overlay is detached, whatever
    the count. *)
Theorem splash_removed_after_delay t (d : N) :
  (500 <= d)%N ->
  let s := run init t in
  timers (elapse d s) = [] /\
  (timers s <> [] -> attached (elapse d s) = false).
Proof.
  intros Hd s. pose proof (timers_window t) as Hw. fold s in Hw. simpl in Hw.
  destruct (elapse_first_removal_detaches d s) as (Ha & _ & Ht & _).
  rewrite Ha, Ht. unfold due. split.
  - assert (forall l : list N,
              Forall (fun x => (now s < x <= now s + 500)%N) l ->
              filter (fun x => ~ (x <= now s + d)%N) l = []) as Hall.
    { induction 1 as [|x l Hx _ IH]; [reflexivity|].
      rewrite filter_cons. destruct (decide (~ (x <= now s + d)%N)); [lia|].
      assumption. }
    now apply Hall.
  - destruct (timers s) as [|x l]; [congruence|]. intros _.
    apply Forall_cons in Hw as [Hx _].
    rewrite filter_cons. destruct (decide (x <= now s + d)%N); [|lia].
    simpl. apply andb_false_r.
Qed.

(** The overlay follows the count from any state in which a positive
    count comes with an element that is attached and no pending removal. *)
Lemma calm_keeps s t :
  0 <= splashCount s ->
  (0 < splashCount s ->
     splash s = true /\ attached s = true /\ timers s = []) ->
  (splashCount s = 0 -> timers s = [] -> attached s = false) ->
  calm s t = true ->
  attached_iff_counted (run s t).
Proof.
  revert s; induction t as [|e t IH]; intros s Hc Hpos Hzero Hcalm.
  - split; [intros H; now apply Hpos | assumption].
  - simpl in Hcalm. apply andb_true_iff in Hcalm as [He Hcalm].
    apply (IH (step s e)); try assumption; clear IH Hcalm;
      destruct e as [|h|d]; simpl.
    + lia.
    + unfold dispose. destruct (handles s !! h) as [[|]|]; try assumption.
      unfold release; simpl.
      destruct ((Z.max (splashCount s - 1) 0 =? 0) && splash s); simpl; lia.
    + destruct (elapse_first_removal_detaches d s) as (_ & _ & _ & _ & -> & _).
      assumption.
    + intros _. destruct (timers s); [tauto | discriminate].
    + unfold dispose. destruct (handles s !! h) as [[|]|]; try assumption.
      unfold release; simpl.
      destruct (Z.eqb_spec (Z.max (splashCount s - 1) 0) 0) as [E|E];
        destruct (splash s) eqn:Es; simpl; rewrite ?Es; try lia;
        intros H; apply Hpos; lia.
    + destruct (elapse_first_removal_detaches d s)
        as (Ha & _ & Ht & _ & Hn & _).
      destruct (elapse_keeps d s) as (Hs & _).
      rewrite Ha, Ht, Hn, Hs. intros H. destruct (Hpos H) as (-> & -> & E).
      unfold due. rewrite E. repeat split.
    + lia.
    + unfold dispose. destruct (handles s !! h) as [[|]|]; try assumption.
      unfold release; simpl.
      destruct (Z.eqb_spec (Z.max (splashCount s - 1) 0) 0) as [E|E];
        destruct (splash s) eqn:Es; simpl; try lia.
      * intros _ H. now destruct (timers s).
      * intros _. apply Hzero.
        destruct (Z.eq_dec (splashCount s) 0) as [|N]; [assumption|].
        assert (0 < splashCount s) as P by lia.
        destruct (Hpos P) as [? _]; congruence.
    + destruct (elapse_first_removal_detaches d s)
        as (Ha & _ & Ht & _ & Hn & _).
      rewrite Ha, Ht, Hn. unfold due. intros Hz Hl.
      destruct (timers s) as [|x l] eqn:El; [now rewrite (Hzero Hz eq_refl)|].
      rewrite filter_cons in Hl. rewrite filter_cons.
      destruct (decide (x <= now s + d)%N) as [Hx|Hx].
      * simpl. apply andb_false_r.
      * destruct (decide (~ (x <= now s + d)%N)); [discriminate | tauto].
Qed.

(** X5. As long as [show()] is never called while a removal is pending,
    the overlay follows the count: it is attached while the count is
    positive, and detached once the count is zero and no removal is
    pending. *)
Theorem splash_attached_when_calm t :
  calm init t = true -> attached_iff_counted (run init t).
Proof.
  apply calm_keeps; simpl; [lia | lia | reflexivity].
Qed.

End SplashMore.

(** ** More on the state database plugin *)

Section StateMore.

Import StateDB.

Variable Data : Type.
Variable Reason : Type.
Variable base : jsstring.

Implicit Types (s : State Data Reason) (e : Event Data Reason)
  (t : list (Event Data Reason)).

(** X6. After any course of events the browser's URL is the base URL of
    the application if the load command has run past its match, and the
    URL the page was opened with otherwise: nothing else rewrites it. *)
Theorem url_rewritten_iff_loaded (u : jsstring) t :
  let s := run base (activate u) t in
  url s = if resolved s then base else u.
Proof.
  induction t as [|e t IH] using rev_ind; [reflexivity|].
  rewrite run_snoc. set (s := run base (activate u) t) in *. simpl in IH.
  destruct e as [|path|n r]; simpl.
  - destruct (connected s); [|assumption].
    unfold unload; simpl. destruct (resolved s); simpl; assumption.
  - destruct (registered s); [|assumption].
    destruct (pattern_match (or_empty path)) as [w|] eqn:E.
    + destruct (loadState_matched _ _ base path s w E) as [_ ->]; reflexivity.
    + rewrite (loadState_unmatched _ _ base path s E); assumption.
  - destruct (fetching s !! n); [|assumption].
    destruct r; simpl; assumption.
Qed.

(** X7. Once the routing event has fired, further routing events and
    executions of the load command change nothing: the command and its
    route are disposed and [unload] is disconnected. Only fetches still in
    flight can act. *)
Theorem routed_once_then_inert (u : jsstring) t t' :
  (0 < routings t)%nat ->
  Forall (fun e => match e with Settle _ _ => False | _ => True end) t' ->
  run base (run base (activate u) t) t' = run base (activate u) t.
Proof.
  intros Hr Ht'.
  destruct (activation_invariant _ _ base u t) as (Hreg & Hcon & _).
  set (s := run base (activate u) t) in *. simpl in Hreg, Hcon.
  assert (connected s = false) as Ec.
  { destruct (connected s); [|reflexivity].
    destruct Hcon as [Hcon _]. specialize (Hcon eq_refl). lia. }
  rewrite Ec in Hreg. clearbody s.
  induction Ht' as [|e l He _ IH]; [reflexivity|].
  rewrite run_cons.
  destruct e as [|path|n r]; simpl; [rewrite Ec | rewrite Hreg | contradiction];
    exact IH.
Qed.

(** X8. Every value the transform is resolved with is either [cancel]
    with [null] contents, or [overwrite] with the data of a workspace that
    a fetch was fulfilled with: the store is never overwritten with
    anything but a fetched workspace. *)
Theorem resolves_provenance (u : jsstring) t (v : DataTransform Data) :
  In v (resolves (run base (activate u) t)) ->
  v = {| type := cancel; contents := None |} \/
  exists n session,
    In (Settle n (Fulfilled session)) t /\
    v = {| type := overwrite; contents := Some (data session) |}.
Proof.
  revert v; induction t as [|e t IH] using rev_ind; intros v; [intros []|].
  rewrite run_snoc. set (s := run base (activate u) t) in *.
  assert (In v (resolves s) ->
          v = {| type := cancel; contents := None |} \/
          exists n session,
            In (Settle n (Fulfilled session)) (t ++ [e]) /\
            v = {| type := overwrite; contents := Some (data session) |})
    as Hold.
  { intros H. destruct (IH v H) as [-> | (n & session & Hin & ->)];
      [now left | right].
    exists n, session; split; [apply in_or_app; now left | reflexivity]. }
  destruct e as [|path|n r]; simpl.
  - destruct (connected s); [|assumption].
    unfold unload; simpl. destruct (resolved s); simpl; [assumption|].
    intros [H | [<- | []]]%in_app_or; [now apply Hold | now left].
  - destruct (registered s); [|assumption].
    destruct (pattern_match (or_empty path)) as [w|] eqn:E.
    + destruct (loadState_matched _ _ base path s w E) as [_ ->]; assumption.
    + rewrite (loadState_unmatched _ _ base path s E); assumption.
  - destruct (fetching s !! n); [|assumption].
    destruct r as [session | reason]; simpl;
      (intros [H | [<- | []]]%in_app_or; [now apply Hold|]).
    + right. exists n, session. split; [|reflexivity].
      apply in_or_app; right; now left.
    + now left.
Qed.

(** X9. A path made of [/workspaces/] and a non-empty id free of line
    terminators gives back exactly that id, slashes and all, and so does
    such a path followed by a line terminator and anything: the load
    command then rewrites the URL, sets [resolved] and starts the fetch of
    that id, resolving nothing yet. *)
Theorem workspace_id_round_trip (w rest : jsstring) s :
  w <> [] ->
  Forall (fun c => dot c = true) w ->
  match rest with [] => True | c :: _ => is_line_terminator c = true end ->
  pattern_match (lit "/workspaces/" ++ w ++ rest) = Some w /\
  loadState base (Some (lit "/workspaces/" ++ w ++ rest)) s =
    (Fetching w,
     {| resolved := true; registered := registered s;
        connected := connected s; resolves := resolves s;
        fetching := fetching s ++ [w]; url := base;
        console := console s |}).
Proof.
  intros Hne Hall Hrest.
  assert (pattern_match (lit "/workspaces/" ++ w ++ rest) = Some w) as Hm.
  { apply pattern_match_Matches. exists rest. repeat split; assumption. }
  split; [assumption|].
  now apply loadState_matched.
Qed.

End StateMore.

(** ** The save command and the load command together *)

Section SaveMore.

Import StateDB.

Variable Data : Type.
Variable Reason : Type.
Variable Date : Type.
Variable Time_format : Date -> jsstring -> jsstring.
Variable URLExt_join : jsstring -> jsstring -> jsstring.
Variable workspacesUrl : jsstring.
Variable base : jsstring.

Implicit Types (w : Desk Data Reason) (a : Answer Data Reason).

(** X10. What the save command hands to the workspace service restores
    the saved data: if the id it formats is not empty and holds no line
    terminator, then the load command executed with [/workspaces/] and
    that id fetches that id, and when the fetch is fulfilled with the
    workspace that was saved the transform is resolved, once, with
    [overwrite] and the data that was serialized. *)
Theorem saved_workspace_restores (date : Date) (d : Data) w (u : jsstring) :
  let id := Time_format date (lit "YYYYMMDDHHmm-x") in
  id <> [] ->
  Forall (fun c => dot c = true) id ->
  exists workspace : Workspace Data,
    saves (snd (advance (saveState Time_format URLExt_join workspacesUrl date w)
                  (Serialized (Fulfilled d))))
      = saves w ++ [(id, workspace)] /\
    let s := run (Reason := Reason) base (activate u)
               [Execute (Some (lit "/workspaces/" ++ id)); Routed] in
    fetching s = [id] /\
    resolves (step base s (Settle 0 (Fulfilled workspace))) =
      [{| type := overwrite; contents := Some d |}].
Proof.
  intros id Hne Hall. exists {| data := d; metadata := id |}.
  split; [reflexivity|].
  assert (pattern_match (or_empty (Some (lit "/workspaces/" ++ id))) = Some id)
    as Hm.
  { apply pattern_match_Matches. exists []. rewrite app_nil_r.
    repeat split; assumption. }
  rewrite (run_cons Data Reason base).
  change (step base (activate u) (Execute (Some (lit "/workspaces/" ++ id))))
    with (snd (loadState (Data := Data) (Reason := Reason) base
                 (Some (lit "/workspaces/" ++ id)) (activate u))).
  destruct (loadState_matched Data Reason base _ (activate u) id Hm) as [_ ->].
  split; reflexivity.
Qed.

(** The chain of the save command, as far as it has run, against the desk
    it started from. *)
Lemma advance_grows w (tw : Task Reason * Desk Data Reason) a :
  (exists ls lw,
     saves (snd tw) = saves w ++ ls /\ warned (snd tw) = warned w ++ lw /\
     match fst tw with
     | AwaitJSON _ => ls = [] /\ lw = []
     | AwaitSave _ => length ls = 1%nat /\ lw = []
     | Done _ => (length ls <= 1 /\ length lw <= 1 /\
                  1 <= length ls + length lw)%nat
     end) ->
  exists ls lw,
    saves (snd (advance tw a)) = saves w ++ ls /\
    warned (snd (advance tw a)) = warned w ++ lw /\
    match fst (advance tw a) with
    | AwaitJSON _ => ls = [] /\ lw = []
    | AwaitSave _ => length ls = 1%nat /\ lw = []
    | Done _ => (length ls <= 1 /\ length lw <= 1 /\
                 1 <= length ls + length lw)%nat
    end.
Proof.
  intros (ls & lw & Hs & Hw & Ht). unfold advance.
  destruct tw as [[id|id|r] w']; simpl in *;
    destruct a as [[d|reason]|[[]|reason]]; simpl;
    try (exists ls, lw; repeat split; tauto).
  - destruct Ht as [-> ->]. rewrite Hs, Hw, !app_nil_r.
    exists [(id, {| data := d; metadata := id |})], [].
    rewrite app_nil_r. repeat split.
  - destruct Ht as [-> ->]. rewrite Hs, Hw, !app_nil_r.
    exists [], [Warn (lit "Saving workspace failed.") reason].
    rewrite app_nil_r. repeat split; simpl; lia.
  - destruct Ht as [Hl ->]. exists ls, [].
    repeat split; try assumption; simpl; lia.
  - destruct Ht as [Hl ->]. rewrite Hw, app_nil_r.
    exists ls, [Warn (lit "Saving workspace failed.") reason].
    repeat split; try assumption; simpl; lia.
Qed.

(** X11. However the calls of the save command settle, and whatever else
    the environment answers, one execution requests at most one save and
    writes at most one warning, keeping what was there before; once its
    promise has settled it has requested a save or written a warning. *)
Theorem save_requests_at_most_once (date : Date) w
    (answers : list (Answer Data Reason)) :
  let final :=
    fold_left advance answers
      (saveState Time_format URLExt_join workspacesUrl date w) in
  exists ls lw,
    saves (snd final) = saves w ++ ls /\
    warned (snd final) = warned w ++ lw /\
    (length ls <= 1)%nat /\ (length lw <= 1)%nat /\
    match fst final with
    | Done _ => (1 <= length ls + length lw)%nat
    | AwaitSave _ => length ls = 1%nat /\ lw = []
    | AwaitJSON _ => ls = [] /\ lw = []
    end.
Proof.
  intros final.
  assert (exists ls lw,
            saves (snd final) = saves w ++ ls /\
            warned (snd final) = warned w ++ lw /\
            match fst final with
            | AwaitJSON _ => ls = [] /\ lw = []
            | AwaitSave _ => length ls = 1%nat /\ lw = []
            | Done _ => (length ls <= 1 /\ length lw <= 1 /\
                         1 <= length ls + length lw)%nat
            end) as (ls & lw & Hs & Hw & Ht).
  { subst final. induction answers as [|a l IH] using rev_ind.
    - exists [], []. simpl. now rewrite !app_nil_r.
    - rewrite fold_left_app; simpl. now apply advance_grows. }
  exists ls, lw. split; [assumption|]. split; [assumption|].
  destruct (fst final).
  - destruct Ht as [-> ->]. simpl. repeat split; lia.
  - destruct Ht as [Hl ->]. simpl. repeat split; lia.
  - repeat split; lia.
Qed.

End SaveMore.

(** ** The theme menu and the palette entries *)

Section ThemeItems.

Import Themes.

Variable Num : Type.
Variable num_to_string : Num -> jsstring.
Variable num_truthy : Num -> bool.
Variable Manager : Type.
Variable theme : Manager -> option jsstring.

Lemma item_args_theme (b : bool) (x : jsstring) :
  item_args (Num := Num) b x !! lit "theme" = Some (JStr x).
Proof.
  unfold item_args, Args.
  rewrite lookup_insert_ne by (vm_compute; discriminate).
  apply lookup_insert_eq.
Qed.

Lemma item_args_isPalette (b : bool) (x : jsstring) :
  item_args (Num := Num) b x !! lit "isPalette" = Some (JBool b).
Proof. unfold item_args, Args. apply lookup_insert_eq. Qed.

(** X12. For every list of themes the manager offers, the theme menu gets
    one item per theme, labelled with the theme's name, and the palette
    one item per theme, labelled [Use], the name and [Theme], in the
    order of the list; all of them run the change-theme command, and an
    item is toggled exactly when its theme is the manager's current
    theme. Without a main menu the menu items are skipped and the palette
    still gets its items, without a palette the palette items are skipped
    and the menu still gets its items: either half depends on its own
    collaborator only. *)
Theorem theme_items_labelled (themes : list jsstring) (m : Manager) :
  map (fun it : Item Num => label num_to_string num_truthy (args it))
      (themeMenu_items themes)
    = map (fun x => Some (JStr x)) themes /\
  map (fun it : Item Num => label num_to_string num_truthy (args it))
      (palette_items themes)
    = map (fun x => Some (JStr (lit "Use " ++ x ++ lit " Theme"))) themes /\
  map (fun it : Item Num => isToggled theme (args it) m) (themeMenu_items themes)
    = map (fun x => bool_decide (theme m = Some x)) themes /\
  map (fun it : Item Num => isToggled theme (args it) m) (palette_items themes)
    = map (fun x => bool_decide (theme m = Some x)) themes /\
  Forall (fun it : Item Num => command it = CommandIDs.changeTheme)
    (themeMenu_items (Num := Num) themes ++ palette_items themes) /\
  contributions (Num := Num) false false themes = ([], []) /\
  contributions (Num := Num) true true themes
    = (themeMenu_items themes, palette_items themes) /\
  contributions (Num := Num) true false themes
    = (themeMenu_items themes, []) /\
  contributions (Num := Num) false true themes
    = ([], palette_items themes) /\
  (forall mainMenu palette : bool,
     fst (contributions (Num := Num) mainMenu palette themes)
       = fst (contributions mainMenu (negb palette) themes) /\
     snd (contributions (Num := Num) mainMenu palette themes)
       = snd (contributions (negb mainMenu) palette themes)).
Proof.
  assert (forall b x,
            isToggled theme (item_args (Num := Num) b x) m
              = bool_decide (theme m = Some x)) as Htog.
  { intros b x. unfold isToggled. rewrite item_args_theme.
    destruct (theme m) as [cur|]; simpl; [|reflexivity].
    apply bool_decide_ext. split; congruence. }
  unfold themeMenu_items, palette_items.
  repeat split; rewrite ?map_map.
  - apply map_ext; intros x; simpl. unfold label.
    now rewrite item_args_isPalette, item_args_theme.
  - apply map_ext; intros x; simpl. unfold label.
    now rewrite item_args_isPalette, item_args_theme.
  - apply map_ext; intros x; simpl. apply Htog.
  - apply map_ext; intros x; simpl. apply Htog.
  - apply Forall_app; split; apply Forall_map, Forall_true; reflexivity.
Qed.

End ThemeItems.

(** ** Further theorems at concrete inputs *)

Section MoreInstances.

Import StateDB.

(** [splash_removed_after_delay]: one show, its disposal, then 500 ms. *)
Lemma splash_removed_after_delay_witness :
  let s := Private.run Private.init [Private.Show; Private.Dispose 0] in
  Private.timers (Private.elapse 500 s) = [] /\
  Private.attached (Private.elapse 500 s) = false.
Proof.
  destruct (splash_removed_after_delay [Private.Show; Private.Dispose 0]
              500%N (N.le_refl 500)) as [Ht Ha].
  split; [exact Ht | apply Ha; discriminate].
Defined.

(** [splash_attached_when_calm]: two overlapping shows, both disposed, the
    fade completed, and a show after it. *)
Lemma splash_attached_when_calm_witness :
  let s := Private.run Private.init
             [Private.Show; Private.Show; Private.Dispose 0;
              Private.Dispose 1; Private.Elapse 500; Private.Show] in
  Private.splashCount s = 1 /\ Private.attached s = true.
Proof.
  destruct (splash_attached_when_calm
              [Private.Show; Private.Show; Private.Dispose 0;
               Private.Dispose 1; Private.Elapse 500; Private.Show]
              eq_refl) as [Hp _].
  split; [reflexivity | apply Hp; reflexivity].
Defined.

(** [routed_once_then_inert]: after the first route, a second route to a
    workspace does nothing. *)
Lemma routed_once_then_inert_witness :
  run (Data := Z) (Reason := unit) (lit "/lab")
    (run (lit "/lab") (activate (lit "/lab")) [Routed])
    [Execute (Some (lit "/workspaces/abc")); Routed]
  = run (lit "/lab") (activate (lit "/lab")) [Routed].
Proof.
  apply (routed_once_then_inert Z unit (lit "/lab") (lit "/lab") [Routed]
           [Execute (Some (lit "/workspaces/abc")); Routed]).
  - apply Nat.lt_0_1.
  - repeat constructor.
Defined.

(** [resolves_provenance]: the value resolved after a fulfilled fetch. *)
Lemma resolves_provenance_witness :
  {| type := overwrite; contents := Some 7 |}
    = {| type := cancel; contents := None |} \/
  exists n session,
    In (Settle (Reason := unit) n (Fulfilled session))
       [Execute (Some (lit "/workspaces/abc"));
        Settle 0 (Fulfilled {| data := 7; metadata := lit "abc" |})] /\
    {| type := overwrite; contents := Some 7 |}
      = {| type := overwrite; contents := Some (data session) |}.
Proof.
  apply (resolves_provenance Z unit (lit "/lab") (lit "/lab")
           [Execute (Some (lit "/workspaces/abc"));
            Settle 0 (Fulfilled {| data := 7; metadata := lit "abc" |})]
           {| type := overwrite; contents := Some 7 |}).
  left; reflexivity.
Defined.

(** [workspace_id_round_trip]: an id with a slash in it. *)
Lemma workspace_id_round_trip_witness :
  pattern_match (lit "/workspaces/" ++ lit "a/b" ++ []) = Some (lit "a/b").
Proof.
  apply (proj1 (workspace_id_round_trip Z unit (lit "/lab") (lit "a/b") []
                  (activate (lit "/lab"))
                  ltac:(discriminate) ltac:(repeat constructor) I)).
Defined.

(** [saved_workspace_restores]: a clock that formats to a fixed id. *)
Lemma saved_workspace_restores_witness :
  exists workspace : Workspace Z,
    saves (snd (advance
                  (saveState (Reason := unit)
                     (fun (_ : unit) (_ : jsstring) => lit "201801011200-1514808000000")
                     (fun a b => a ++ lit "/" ++ b) (lit "/lab/workspaces") tt
                     {| clipboard := None; saves := []; warned := [] |})
                  (Serialized (Fulfilled 7))))
      = [] ++ [(lit "201801011200-1514808000000", workspace)] /\
    let s := run (Reason := unit) (lit "/lab") (activate (lit "/lab"))
               [Execute (Some (lit "/workspaces/" ++ lit "201801011200-1514808000000"));
                Routed] in
    fetching s = [lit "201801011200-1514808000000"] /\
    resolves (step (lit "/lab") s (Settle 0 (Fulfilled workspace))) =
      [{| type := overwrite; contents := Some 7 |}].
Proof.
  apply (saved_workspace_restores Z unit unit
           (fun (_ : unit) (_ : jsstring) => lit "201801011200-1514808000000")
           (fun a b => a ++ lit "/" ++ b) (lit "/lab/workspaces") (lit "/lab")
           tt 7 {| clipboard := None; saves := []; warned := [] |} (lit "/lab")).
  - discriminate.
  - repeat constructor.
Defined.

End MoreInstances.

(** ** The splash screen once it is released *)

Section SplashIdle.

Import Private.

Implicit Types (s : State) (e : Event) (t : list Event).

(** An element that was never created is not attached, and an overlay
    whose count is zero with no removal pending is detached. *)
Lemma detached_when_idle t :
  let s := run init t in
  (splash s = false -> attached s = false) /\
  (splashCount s = 0 -> timers s = [] -> attached s = false).
Proof.
  induction t as [|e t IH] using rev_ind; [split; reflexivity|].
  rewrite splash_run_snoc.
  destruct (splash_invariant t) as [Hc _].
  set (s := run init t) in *. simpl in IH. destruct IH as [Hn Hz].
  destruct e as [|h|d]; simpl.
  - split; [discriminate | lia].
  - unfold dispose. destruct (handles s !! h) as [[|]|]; try tauto.
    unfold release; simpl.
    destruct (Z.eqb_spec (Z.max (splashCount s - 1) 0) 0) as [E|E];
      destruct (splash s) eqn:Es; simpl; rewrite ?Es.
    + split; [discriminate | intros _ H; now destruct (timers s)].
    + split; intros; now apply Hn.
    + split; [discriminate | lia].
    + split; intros; now apply Hn.
  - destruct (elapse_first_removal_detaches d s)
      as (Ha & _ & Ht & _ & Hn' & _).
    destruct (elapse_keeps d s) as (Hs & _).
    rewrite Ha, Ht, Hn', Hs. unfold due. split.
    + intros H. now rewrite (Hn H).
    + intros H0 Hl.
      destruct (timers s) as [|x l] eqn:El; [now rewrite (Hz H0 eq_refl)|].
      rewrite filter_cons in Hl. rewrite filter_cons.
      destruct (decide (x <= now s + d)%N) as [Hx|Hx].
      * simpl. apply andb_false_r.
      * destruct (decide (~ (x <= now s + d)%N)); [discriminate | tauto].
Qed.

(** X13. Whatever happened before, once the count is zero and the fade
    delay has passed the overlay is detached and no removal is pending:
    the splash screen does not outlive its last handle by more than the
    delay. *)
Theorem splash_gone_after_release t (d : N) :
  (500 <= d)%N ->
  let s := run init t in
  splashCount s = 0 ->
  attached (elapse d s) = false /\ timers (elapse d s) = [].
Proof.
  intros Hd s Hz.
  assert (timers (elapse d s) = []) as Ht.
  { pose proof (timers_window t) as Hw. fold s in Hw. simpl in Hw.
    destruct (elapse_first_removal_detaches d s) as (_ & _ & -> & _).
    induction Hw as [|x l Hx _ IH]; [reflexivity|].
    rewrite filter_cons. destruct (decide (~ (x <= now s + d)%N)); [lia|].
    assumption. }
  split; [|assumption].
  destruct (detached_when_idle (t ++ [Elapse d])) as [_ H].
  rewrite splash_run_snoc in H.
  change (step (run init t) (Elapse d)) with (elapse d s) in H.
  apply H; [|assumption].
  destruct (elapse_keeps d s) as (_ & -> & _). assumption.
Qed.

(** [splash_gone_after_release]: a show during the fade, disposed in
    turn, then a second. *)
Lemma splash_gone_after_release_witness :
  let s := run init [Show; Dispose 0; Show; Dispose 1] in
  attached (elapse 1000 s) = false /\ timers (elapse 1000 s) = [].
Proof.
  apply (splash_gone_after_release [Show; Dispose 0; Show; Dispose 1] 1000%N).
  - discriminate.
  - reflexivity.
Defined.

End SplashIdle.
